(** * AVR_millis: a millisecond time base on Timer0 and its interval timers

    A shallow embedding of [Sources/millis.c] and [Sources/millis.h].

    - The machine is the set of special function registers the driver can
      reach, each an 8-bit cell, and the 32-bit variable [System_millis].
    - [millis_Init] and the compare-match handler are programs of a small
      state monad that also records, in program order, every store to a
      volatile object.
    - The interval timer [millis_T] is a record; its operations are the
      statements of the usage example in the header of [millis.h]. *)

From Stdlib Require Import ZArith QArith Qround List Bool Lia.
Import ListNotations.

Local Open Scope Z_scope.

(** ** Fixed-width unsigned integers *)

Module Width.

(** [uint8_t]: every I/O register of the device. *)
Definition wrap8 (z : Z) : Z := z mod 2 ^ 8.

(** [uint32_t]: [System_millis] and the three fields of [millis_T]. *)
Definition millis_bits : Z := 32.
Definition wrap32 (z : Z) : Z := z mod 2 ^ millis_bits.

Definition uint8 (z : Z) : Prop := 0 <= z < 2 ^ 8.
Definition uint32 (z : Z) : Prop := 0 <= z < 2 ^ millis_bits.

(** Unsigned 32-bit addition and subtraction of C: the mathematical result
    reduced modulo [2 ^ 32]. *)
Definition add32 (a b : Z) : Z := wrap32 (a + b).
Definition sub32 (a b : Z) : Z := wrap32 (a - b).

End Width.
Import Width.

(** ** The machine *)

(** The special function registers of Timer/Counter0 together with the status
    register, whose bit 7 is the global interrupt enable. [millis_Init] names
    five of them; the others stand for the state it has to leave alone. *)
Inductive sfr : Type :=
| TCCR0A | TCCR0B | TCNT0 | OCR0A | OCR0B | TIMSK0 | TIFR0 | SREG.

Definition sfr_eqb (a b : sfr) : bool :=
  match a, b with
  | TCCR0A, TCCR0A | TCCR0B, TCCR0B | TCNT0, TCNT0 | OCR0A, OCR0A
  | OCR0B, OCR0B | TIMSK0, TIMSK0 | TIFR0, TIFR0 | SREG, SREG => true
  | _, _ => false
  end.

Record mcu : Type := Mcu {
  io : sfr -> Z;            (* the I/O space *)
  System_millis : Z         (* volatile uint32_t System_millis *)
}.

Definition set_io (r : sfr) (v : Z) (s : mcu) : mcu :=
  {| io := fun r' => if sfr_eqb r' r then v else io s r';
     System_millis := System_millis s |}.

Definition set_millis (v : Z) (s : mcu) : mcu :=
  {| io := io s; System_millis := v |}.

(** [volatile uint32_t System_millis = 0;] with the registers as the
    hardware left them. *)
Definition startup (regs : sfr -> Z) : mcu :=
  {| io := regs; System_millis := 0 |}.

(** Every register reads zero after a reset of the device. *)
Definition power_on : mcu := startup (fun _ => 0).

(** The I-bit of [SREG]. *)
Definition global_interrupts_enabled (s : mcu) : bool :=
  Z.testbit (io s SREG) 7.

Definition wf_mcu (s : mcu) : Prop :=
  (forall r, uint8 (io s r)) /\ uint32 (System_millis s).

(** ** Programs: state and a log of volatile stores *)

Inductive event : Type :=
| IoStore (r : sfr) (v : Z)      (* a register received the content [v] *)
| MillisStore (v : Z).           (* [System_millis] received [v] *)

Definition M (A : Type) : Type := mcu -> A * mcu * list event.

Definition ret {A : Type} (a : A) : M A := fun s => (a, s, []).

Definition bind {A B : Type} (m : M A) (k : A -> M B) : M B :=
  fun s =>
    let '(a, s1, t1) := m s in
    let '(b, s2, t2) := k a s1 in
    (b, s2, t1 ++ t2).

Declare Scope prog_scope.
Delimit Scope prog_scope with prog.
Notation "x <- m ;; k" := (bind m (fun x => k))
  (at level 61, m at next level, right associativity) : prog_scope.
Notation "m ;; k" := (bind m (fun _ => k))
  (at level 61, right associativity) : prog_scope.
Local Open Scope prog_scope.

Definition exec {A : Type} (m : M A) (s : mcu) : mcu := snd (fst (m s)).
Definition trace {A : Type} (m : M A) (s : mcu) : list event := snd (m s).

Definition load (r : sfr) : M Z := fun s => (io s r, s, []).

Definition store (r : sfr) (v : Z) : M unit :=
  fun s => (tt, set_io r (wrap8 v) s, [IoStore r (wrap8 v)]).

Definition load_millis : M Z := fun s => (System_millis s, s, []).

Definition store_millis (v : Z) : M unit :=
  fun s => (tt, set_millis (wrap32 v) s, [MillisStore (wrap32 v)]).

(** ** What [#include "aKaReZa.h"] supplies

    [aKaReZa.h] and the device header it pulls in are not among the sources.
    The bit numbers that [millis_Init] names, and the effect of the
    interrupt-flag-clear primitive on a flag register, are therefore taken as
    parameters. *)
Class aKaReZa_h : Type := {
  WGM00 : Z; WGM01 : Z; WGM02 : Z;
  CS00 : Z; CS01 : Z; CS02 : Z;
  OCIE0A : Z;
  OCF0A : Z;
  (** content of a flag register after the primitive was applied to flag
      number [b] of a register holding [x] *)
  intFlag_cleared : forall (x b : Z), Z
}.

(** Modelled from the spec: the bit-set primitive of [aKaReZa.h], which is
    not among the sources; [Reg |= (1 << Bit)] on an 8-bit register. *)
Definition bitSet (r : sfr) (b : Z) : M unit :=
  x <- load r ;; store r (Z.lor x (Z.shiftl 1 b)).

(** Modelled from the spec: the bit-clear primitive of [aKaReZa.h], which is
    not among the sources; [Reg &= ~(1 << Bit)] on an 8-bit register. *)
Definition bitClear (r : sfr) (b : Z) : M unit :=
  x <- load r ;; store r (Z.land x (Z.lnot (Z.shiftl 1 b))).

Section Driver.

Context {h : aKaReZa_h}.

(** Modelled from the spec: the interrupt-flag-clear primitive of
    [aKaReZa.h], which is not among the sources. The register ends up with
    the content the header's parameter prescribes. *)
Definition intFlag_clear (r : sfr) (b : Z) : M unit :=
  fun s =>
    let v := intFlag_cleared (io s r) b in
    (tt, set_io r v s, [IoStore r v]).

(** [ISR(TIMER0_COMPA_vect) { System_millis++; }] *)
Definition ISR_TIMER0_COMPA_vect : M unit :=
  c <- load_millis ;; store_millis (c + 1).

(** [void millis_Init(void)] *)
Definition millis_Init : M unit :=
  bitClear TCCR0A WGM00 ;;
  bitSet   TCCR0A WGM01 ;;
  bitClear TCCR0B WGM02 ;;
  bitSet   TCCR0B CS00 ;;
  bitSet   TCCR0B CS01 ;;
  bitClear TCCR0B CS02 ;;
  bitSet   TIMSK0 OCIE0A ;;
  intFlag_clear TIFR0 OCF0A ;;
  store OCR0A 249.

End Driver.

(** [n] firings of the compare-match interrupt, one after the other. *)
Definition ticks (n : nat) (s : mcu) : mcu :=
  Nat.iter n (exec ISR_TIMER0_COMPA_vect) s.

(** ** The device the source is written for

    Bit numbers of the ATmega328P for the names [millis_Init] uses. Its flag
    registers clear a flag that is written as one. *)

(** Flag [b] alone is written as one. *)
Definition flag_write_one (x b : Z) : Z :=
  Z.land x (Z.lnot (Z.shiftl 1 b)).

(** The register is read, flag [b] is or-ed in and the byte is written back:
    every flag that read as one is written as one. *)
Definition flag_read_modify_write (x b : Z) : Z :=
  Z.land x (Z.lnot (wrap8 (Z.lor x (Z.shiftl 1 b)))).

Definition atmega328p : aKaReZa_h :=
  {| WGM00 := 0; WGM01 := 1; WGM02 := 3;
     CS00 := 0; CS01 := 1; CS02 := 2;
     OCIE0A := 1;
     OCF0A := 1;
     intFlag_cleared := flag_write_one |}.

Definition atmega328p_rmw : aKaReZa_h :=
  {| WGM00 := 0; WGM01 := 1; WGM02 := 3;
     CS00 := 0; CS01 := 1; CS02 := 2;
     OCIE0A := 1;
     OCF0A := 1;
     intFlag_cleared := flag_read_modify_write |}.

(** A bit number names a bit of an 8-bit register. *)
Definition bit_in_reg (b : Z) : bool := (0 <=? b) && (b <? 8).

(** The names that share a register denote different bits of it. *)
Definition layout_ok (h : aKaReZa_h) : bool :=
  bit_in_reg WGM00 && bit_in_reg WGM01 && bit_in_reg WGM02
  && bit_in_reg CS00 && bit_in_reg CS01 && bit_in_reg CS02
  && bit_in_reg OCIE0A && bit_in_reg OCF0A
  && negb (WGM00 =? WGM01)
  && negb (WGM02 =? CS00) && negb (WGM02 =? CS01) && negb (WGM02 =? CS02)
  && negb (CS00 =? CS01) && negb (CS00 =? CS02) && negb (CS01 =? CS02).

(** The primitive leaves the flag it is applied to not pending. *)
Definition clears_flag (h : aKaReZa_h) : Prop :=
  forall x b, 0 <= b < 8 -> Z.testbit (intFlag_cleared x b) b = false.

(** Applying the primitive a second time changes nothing. *)
Definition clear_is_stable (h : aKaReZa_h) : Prop :=
  forall x b, intFlag_cleared (intFlag_cleared x b) b = intFlag_cleared x b.

(** ** Reading the configuration back *)

Section Readback.

Context {h : aKaReZa_h}.

(** [WGM02:WGM00] as a number; the source's "CTC Mode: WGM02:WGM00 = 010". *)
Definition waveform_mode (s : mcu) : Z :=
  4 * Z.b2z (Z.testbit (io s TCCR0B) WGM02)
  + 2 * Z.b2z (Z.testbit (io s TCCR0A) WGM01)
  + Z.b2z (Z.testbit (io s TCCR0A) WGM00).

(** [CS02:CS00] as a number; the source's "Prescaler 64: CS02:CS00 = 011". *)
Definition clock_select (s : mcu) : Z :=
  4 * Z.b2z (Z.testbit (io s TCCR0B) CS02)
  + 2 * Z.b2z (Z.testbit (io s TCCR0B) CS01)
  + Z.b2z (Z.testbit (io s TCCR0B) CS00).

Definition compare_interrupt_enabled (s : mcu) : bool :=
  Z.testbit (io s TIMSK0) OCIE0A.

Definition compare_flag_pending (s : mcu) : bool :=
  Z.testbit (io s TIFR0) OCF0A.

End Readback.

Definition ctc_mode : Z := 2.            (* 0b010 *)
Definition prescaler64_select : Z := 3.  (* 0b011 *)

(** The configuration the source assumes: "CPU frequency assumed to be 16MHz"
    and "Prescaler: 64". *)
Definition F_CPU : Z := 16000000.
Definition Prescaler : Z := 64.

(** The numeric contract in the specification's words:
    [T = round(F / D / 1000) - 1]. *)
Definition round (q : Q) : Z := Qfloor (q + (1 # 2)).

Definition threshold_contract (F D : Z) : Z :=
  round (inject_Z F / inject_Z D / inject_Z 1000) - 1.

(** ** The steps of the initialisation, as the log shows them *)

Inductive step : Type :=
| ConfigureTimer      (* CTC mode and prescaler: TCCR0A, TCCR0B *)
| SetThreshold        (* OCR0A *)
| EnableInterrupt     (* TIMSK0 *)
| ClearFlag.          (* TIFR0 *)

Definition step_eqb (a b : step) : bool :=
  match a, b with
  | ConfigureTimer, ConfigureTimer | SetThreshold, SetThreshold
  | EnableInterrupt, EnableInterrupt | ClearFlag, ClearFlag => true
  | _, _ => false
  end.

Definition step_of (e : event) : list step :=
  match e with
  | IoStore TCCR0A _ | IoStore TCCR0B _ => [ConfigureTimer]
  | IoStore OCR0A _ => [SetThreshold]
  | IoStore TIMSK0 _ => [EnableInterrupt]
  | IoStore TIFR0 _ => [ClearFlag]
  | _ => []
  end.

(** Consecutive stores that belong to one step count once. *)
Fixpoint merge_repeats (l : list step) : list step :=
  match l with
  | [] => []
  | a :: l' =>
      match l' with
      | [] => [a]
      | b :: _ => if step_eqb a b then merge_repeats l' else a :: merge_repeats l'
      end
  end.

Definition steps_of (tr : list event) : list step :=
  merge_repeats (flat_map step_of tr).

(** Position of the first occurrence of a step. *)
Fixpoint position (a : step) (l : list step) : option nat :=
  match l with
  | [] => None
  | b :: l' => if step_eqb a b then Some O else option_map S (position a l')
  end.

(** Both steps are taken, and [a] is taken first. *)
Definition taken_before (a b : step) (l : list step) : bool :=
  match position a l, position b l with
  | Some i, Some j => Nat.ltb i j
  | _, _ => false
  end.

(** The order the specification words: mode and prescaler, then the threshold,
    then the interrupt source, and the flag. *)
Definition stated_order : list step :=
  [ConfigureTimer; SetThreshold; EnableInterrupt; ClearFlag].

(** The order of the statements of [millis_Init]. *)
Definition source_order : list step :=
  [ConfigureTimer; EnableInterrupt; ClearFlag; SetThreshold].

(** The registers [millis_Init] names. *)
Definition timer_config_regs : list sfr := [TCCR0A; TCCR0B; TIMSK0; TIFR0; OCR0A].

Definition is_config_reg (r : sfr) : bool := existsb (sfr_eqb r) timer_config_regs.

Definition config_store (e : event) : bool :=
  match e with
  | IoStore r _ => is_config_reg r
  | MillisStore _ => false
  end.

(** ** The interval timer of [millis.h] *)

Module IntervalTimer.

(** [typedef struct { uint32_t Previous; uint32_t Delta; uint32_t Interval; } millis_T;] *)
Record millis_T : Type := Build_millis_T {
  Previous : Z;
  Delta : Z;
  Interval : Z
}.

Definition wf_timer (t : millis_T) : Prop :=
  uint32 (Previous t) /\ uint32 (Delta t) /\ uint32 (Interval t).

(** [ledTimer.Delta = System_millis - ledTimer.Previous;] where [now] is the
    value read from [System_millis]. *)
Definition update_Delta (now : Z) (t : millis_T) : millis_T :=
  {| Previous := Previous t;
     Delta := sub32 now (Previous t);
     Interval := Interval t |}.

(** The condition [ledTimer.Delta >= ledTimer.Interval]. *)
Definition interval_reached (t : millis_T) : bool := Delta t >=? Interval t.

(** [ledTimer.Previous = currentMillis;] where [currentMillis] is the tick
    value the client has read, [now]. *)
Definition advance (t : millis_T) (now : Z) : millis_T :=
  {| Previous := wrap32 now;
     Delta := Delta t;
     Interval := Interval t |}.

(** The elapsed time the first statement computes. *)
Definition elapsed (t : millis_T) (now : Z) : Z := Delta (update_Delta now t).

(** The first statement followed by the test: the outcome of the test and the
    timer as the two leave it. *)
Definition check (now : Z) (t : millis_T) : bool * millis_T :=
  let t' := update_Delta now t in (interval_reached t', t').

Definition expired (t : millis_T) (now : Z) : bool := fst (check now t).

(** The whole example: compute the elapsed time, and restart the period when
    the interval is reached. *)
Definition poll (now : Z) (t : millis_T) : bool * millis_T :=
  let '(due, t') := check now t in
  if due then (true, advance t' now) else (false, t').

(** The example as client code runs it, reading the tick counter itself. *)
Definition poll_now (t : millis_T) : M (bool * millis_T) :=
  now <- load_millis ;; ret (poll now t).

End IntervalTimer.
Import IntervalTimer.

(** ** Client code of the time base *)


(** A main loop that runs the example of [millis.h] once after every
    interrupt: the handler fires, then the client polls its timer. *)
Definition tick_then_poll (t : millis_T) : M (bool * millis_T) :=
  ISR_TIMER0_COMPA_vect ;; poll_now t.

(** [n] rounds of it: how often the periodic task ran, the timer and the
    machine at the end. *)
Fixpoint poll_every_tick (n : nat) (t : millis_T) (s : mcu)
  : nat * millis_T * mcu :=
  match n with
  | O => (O, t, s)
  | S n' =>
      let '(k, t1, s1) := poll_every_tick n' t s in
      let '((due, t2), s2, _) := tick_then_poll t1 s1 in
      ((if due then S k else k), t2, s2)
  end.


(** * Properties *)

Example threshold_16MHz_64 : threshold_contract F_CPU Prescaler = 249.
Proof. vm_compute. reflexivity. Qed.

Example steps_power_on :
  steps_of (trace (@millis_Init atmega328p) power_on) = source_order.
Proof. vm_compute. reflexivity. Qed.

(** ** Bits of an 8-bit register *)

Lemma testbit_wrap8 (z n : Z) :
  Z.testbit (wrap8 z) n = (n <? 8) && Z.testbit z n.
Proof. unfold wrap8. apply Z.testbit_mod_pow2. lia. Qed.

Lemma testbit_mask (b n : Z) :
  0 <= b -> Z.testbit (Z.shiftl 1 b) n = (b =? n).
Proof. intro Hb. rewrite Z.shiftl_1_l. now apply Z.pow2_bits_eqb. Qed.

(** The bit a [bitSet] names reads one afterwards; the others keep their
    value. *)
Lemma testbit_set (x b n : Z) :
  0 <= b -> 0 <= n < 8 ->
  Z.testbit (wrap8 (Z.lor x (Z.shiftl 1 b))) n = Z.testbit x n || (b =? n).
Proof.
  intros Hb Hn. rewrite testbit_wrap8, Z.lor_spec, testbit_mask by assumption.
  replace (n <? 8) with true by (symmetry; apply Z.ltb_lt; lia).
  reflexivity.
Qed.

(** The bit a [bitClear] names reads zero afterwards; the others keep their
    value. *)
Lemma testbit_clear (x b n : Z) :
  0 <= b -> 0 <= n < 8 ->
  Z.testbit (wrap8 (Z.land x (Z.lnot (Z.shiftl 1 b)))) n
  = Z.testbit x n && negb (b =? n).
Proof.
  intros Hb Hn.
  rewrite testbit_wrap8, Z.land_spec, Z.lnot_spec, testbit_mask by lia.
  replace (n <? 8) with true by (symmetry; apply Z.ltb_lt; lia).
  reflexivity.
Qed.

Lemma wrap8_range (z : Z) : uint8 (wrap8 z).
Proof. unfold uint8, wrap8. apply Z.mod_pos_bound. lia. Qed.

Lemma wrap32_range (z : Z) : uint32 (wrap32 z).
Proof. unfold uint32, wrap32. apply Z.mod_pos_bound. unfold millis_bits. lia. Qed.

Lemma wrap32_small (z : Z) : uint32 z -> wrap32 z = z.
Proof. unfold uint32, wrap32. intro H. now apply Z.mod_small. Qed.

(** ** The state [millis_Init] leaves *)

Section InitFacts.

Context (h : aKaReZa_h).

(** Register by register: the content after [millis_Init] as a function of
    the content before. *)
Lemma millis_Init_io (s : mcu) (r : sfr) :
  io (exec millis_Init s) r =
  match r with
  | TCCR0A =>
      wrap8 (Z.lor (wrap8 (Z.land (io s TCCR0A) (Z.lnot (Z.shiftl 1 WGM00))))
                   (Z.shiftl 1 WGM01))
  | TCCR0B =>
      wrap8 (Z.land
               (wrap8 (Z.lor
                  (wrap8 (Z.lor
                     (wrap8 (Z.land (io s TCCR0B) (Z.lnot (Z.shiftl 1 WGM02))))
                     (Z.shiftl 1 CS00)))
                  (Z.shiftl 1 CS01)))
               (Z.lnot (Z.shiftl 1 CS02)))
  | TIMSK0 => wrap8 (Z.lor (io s TIMSK0) (Z.shiftl 1 OCIE0A))
  | TIFR0 => intFlag_cleared (io s TIFR0) OCF0A
  | OCR0A => 249
  | TCNT0 | OCR0B | SREG => io s r
  end.
Proof. destruct r; reflexivity. Qed.

Lemma millis_Init_System_millis (s : mcu) :
  System_millis (exec millis_Init s) = System_millis s.
Proof. reflexivity. Qed.

Lemma millis_Init_steps (s : mcu) :
  steps_of (trace millis_Init s) = source_order.
Proof. reflexivity. Qed.

Lemma millis_Init_stores (s : mcu) :
  forallb config_store (trace millis_Init s) = true.
Proof. reflexivity. Qed.

Lemma layout_ok_bits :
  layout_ok h = true ->
  (0 <= WGM00 < 8 /\ 0 <= WGM01 < 8 /\ 0 <= WGM02 < 8) /\
  (0 <= CS00 < 8 /\ 0 <= CS01 < 8 /\ 0 <= CS02 < 8) /\
  (0 <= OCIE0A < 8 /\ 0 <= OCF0A < 8) /\
  WGM00 <> WGM01 /\
  (WGM02 <> CS00 /\ WGM02 <> CS01 /\ WGM02 <> CS02) /\
  (CS00 <> CS01 /\ CS00 <> CS02 /\ CS01 <> CS02).
Proof.
  unfold layout_ok, bit_in_reg.
  rewrite !andb_true_iff, !negb_true_iff, !Z.eqb_neq, !Z.leb_le, !Z.ltb_lt.
  intuition lia.
Qed.

End InitFacts.

(** Decide an equation between bits of registers after [bitSet]s and
    [bitClear]s of known, different bit numbers. *)
Ltac bit_of_reg :=
  rewrite ?millis_Init_io;
  repeat first [ rewrite testbit_clear by lia | rewrite testbit_set by lia ];
  rewrite ?Z.eqb_refl;
  repeat match goal with
         | |- context [?a =? ?b] => rewrite (proj2 (Z.eqb_neq a b)) by lia
         end;
  cbn [negb];
  rewrite ?orb_true_r, ?orb_false_r, ?andb_true_r, ?andb_false_r;
  try reflexivity.

(** Decide an equation between two register contents bit by bit. *)
Ltac bitwise :=
  apply Z.bits_inj'; intros ?n ?Hn;
  repeat first [ rewrite testbit_wrap8 | rewrite Z.lor_spec
               | rewrite Z.land_spec | rewrite Z.lnot_spec by assumption ];
  repeat match goal with
         | |- context [Z.testbit ?a ?n] =>
             let b := fresh "b" in set (b := Z.testbit a n); clearbody b
         | |- context [?n <? 8] =>
             let b := fresh "b" in set (b := n <? 8); clearbody b
         end;
  repeat match goal with b : bool |- _ => destruct b end;
  reflexivity.

Lemma exec_bind {A B : Type} (m : M A) (k : A -> M B) (s : mcu) :
  exec (bind m k) s = exec (k (fst (fst (m s)))) (exec m s).
Proof.
  unfold exec, bind. destruct (m s) as [[a s1] t1]. cbn.
  destruct (k a s1) as [[b s2] t2]. reflexivity.
Qed.

Lemma trace_bind {A B : Type} (m : M A) (k : A -> M B) (s : mcu) :
  trace (bind m k) s = trace m s ++ trace (k (fst (fst (m s)))) (exec m s).
Proof.
  unfold trace, exec, bind. destruct (m s) as [[a s1] t1]. cbn.
  destruct (k a s1) as [[b s2] t2]. reflexivity.
Qed.

(** The two ways a flag register of the ATmega328P can be handled both meet
    what is asked of the primitive. *)
Lemma flag_write_one_clears : clears_flag atmega328p.
Proof.
  intros x b Hb. cbn. unfold flag_write_one.
  rewrite Z.land_spec, Z.lnot_spec, testbit_mask, Z.eqb_refl by lia.
  apply andb_false_r.
Qed.

Lemma flag_write_one_stable : clear_is_stable atmega328p.
Proof. intros x b. cbn. unfold flag_write_one. bitwise. Qed.

Lemma flag_read_modify_write_clears : clears_flag atmega328p_rmw.
Proof.
  intros x b Hb. cbn. unfold flag_read_modify_write.
  rewrite Z.land_spec, Z.lnot_spec, testbit_wrap8, Z.lor_spec, testbit_mask,
    Z.eqb_refl by lia.
  replace (b <? 8) with true by (symmetry; apply Z.ltb_lt; lia).
  now destruct (Z.testbit x b).
Qed.

Lemma flag_read_modify_write_stable : clear_is_stable atmega328p_rmw.
Proof. intros x b. cbn. unfold flag_read_modify_write. bitwise. Qed.

(** ** The claims about [millis_Init] *)

(** The clock-select bits after [millis_Init]. *)
Lemma millis_Init_clock_select_bits (h : aKaReZa_h) (s : mcu) :
  layout_ok h = true ->
  Z.testbit (io (exec millis_Init s) TCCR0B) CS02 = false /\
  Z.testbit (io (exec millis_Init s) TCCR0B) CS01 = true /\
  Z.testbit (io (exec millis_Init s) TCCR0B) CS00 = true.
Proof.
  intro Hok.
  destruct (layout_ok_bits h Hok) as (HW & HC & HO & Hw & Hwc & Hc).
  repeat split; bit_of_reg.
Qed.

Lemma millis_Init_clock_select (h : aKaReZa_h) (s : mcu) :
  layout_ok h = true ->
  clock_select (exec millis_Init s) = prescaler64_select.
Proof.
  intro Hok.
  destruct (millis_Init_clock_select_bits h s Hok) as (H2 & H1 & H0).
  unfold clock_select. now rewrite H2, H1, H0.
Qed.

(** C1. After [millis_Init] the compare register holds the threshold of the
    numeric contract [T = round(F / D / 1000) - 1] at [F] = 16 MHz and
    [D] = 64, which is 249, and the clock-select bits [CS02:CS00] read 011,
    the selection of the divisor 64. *)
Theorem millis_Init_threshold_and_prescaler (h : aKaReZa_h) (s : mcu) :
  layout_ok h = true ->
  io (exec millis_Init s) OCR0A = threshold_contract F_CPU Prescaler /\
  io (exec millis_Init s) OCR0A = 249 /\
  Z.testbit (io (exec millis_Init s) TCCR0B) CS02 = false /\
  Z.testbit (io (exec millis_Init s) TCCR0B) CS01 = true /\
  Z.testbit (io (exec millis_Init s) TCCR0B) CS00 = true /\
  clock_select (exec millis_Init s) = prescaler64_select.
Proof.
  intro Hok.
  destruct (millis_Init_clock_select_bits h s Hok) as (H2 & H1 & H0).
  repeat split; trivial.
  now apply millis_Init_clock_select.
Qed.

Lemma millis_Init_threshold_and_prescaler_witness :
  layout_ok atmega328p = true /\
  (io (exec (@millis_Init atmega328p) power_on) OCR0A
     = threshold_contract F_CPU Prescaler /\
   io (exec (@millis_Init atmega328p) power_on) OCR0A = 249 /\
   Z.testbit (io (exec (@millis_Init atmega328p) power_on) TCCR0B)
     (@CS02 atmega328p) = false /\
   Z.testbit (io (exec (@millis_Init atmega328p) power_on) TCCR0B)
     (@CS01 atmega328p) = true /\
   Z.testbit (io (exec (@millis_Init atmega328p) power_on) TCCR0B)
     (@CS00 atmega328p) = true /\
   @clock_select atmega328p (exec (@millis_Init atmega328p) power_on)
     = prescaler64_select).
Proof.
  split.
  - reflexivity.
  - apply (millis_Init_threshold_and_prescaler atmega328p power_on).
    reflexivity.
Defined.

(** C2, as stated, fails: on the ATmega328P, started from reset,
    [millis_Init] does not take its steps in the order mode and prescaler,
    threshold, interrupt source, flag. The threshold is not set before the
    interrupt source is enabled. *)
Lemma millis_Init_not_in_stated_order :
  steps_of (trace (@millis_Init atmega328p) power_on) <> stated_order /\
  taken_before SetThreshold EnableInterrupt
    (steps_of (trace (@millis_Init atmega328p) power_on)) = false.
Proof.
  split.
  - intro H. vm_compute in H. discriminate H.
  - reflexivity.
Qed.

(** C2, amended. [millis_Init] configures CTC mode and the prescaler, then
    enables the compare-match interrupt source, then clears the pending
    compare-match flag, and sets the threshold for 1 ms last. When it returns
    the timer is in CTC mode with the prescaler of 64 selected, the threshold
    is 249, the interrupt source is enabled and its flag is not pending. *)
Theorem millis_Init_steps_and_result (h : aKaReZa_h) (s : mcu) :
  layout_ok h = true ->
  clears_flag h ->
  steps_of (trace millis_Init s) = source_order /\
  waveform_mode (exec millis_Init s) = ctc_mode /\
  clock_select (exec millis_Init s) = prescaler64_select /\
  compare_interrupt_enabled (exec millis_Init s) = true /\
  compare_flag_pending (exec millis_Init s) = false /\
  io (exec millis_Init s) OCR0A = 249.
Proof.
  intros Hok Hclr.
  destruct (layout_ok_bits h Hok) as (HW & HC & HO & Hw & Hwc & Hc).
  split; [apply millis_Init_steps|].
  split.
  { unfold waveform_mode, ctc_mode.
    replace (Z.testbit (io (exec millis_Init s) TCCR0B) WGM02) with false
      by (symmetry; bit_of_reg).
    replace (Z.testbit (io (exec millis_Init s) TCCR0A) WGM01) with true
      by (symmetry; bit_of_reg).
    replace (Z.testbit (io (exec millis_Init s) TCCR0A) WGM00) with false
      by (symmetry; bit_of_reg).
    reflexivity. }
  split; [now apply millis_Init_clock_select|].
  split; [unfold compare_interrupt_enabled; bit_of_reg|].
  split; [|reflexivity].
  unfold compare_flag_pending. rewrite millis_Init_io. apply Hclr. lia.
Qed.

Lemma millis_Init_steps_and_result_witness :
  layout_ok atmega328p = true /\
  clears_flag atmega328p /\
  (steps_of (trace (@millis_Init atmega328p) power_on) = source_order /\
   @waveform_mode atmega328p (exec (@millis_Init atmega328p) power_on)
     = ctc_mode /\
   @clock_select atmega328p (exec (@millis_Init atmega328p) power_on)
     = prescaler64_select /\
   @compare_interrupt_enabled atmega328p
     (exec (@millis_Init atmega328p) power_on) = true /\
   @compare_flag_pending atmega328p
     (exec (@millis_Init atmega328p) power_on) = false /\
   io (exec (@millis_Init atmega328p) power_on) OCR0A = 249).
Proof.
  split; [reflexivity|].
  split; [exact flag_write_one_clears|].
  apply (millis_Init_steps_and_result atmega328p power_on).
  - reflexivity.
  - exact flag_write_one_clears.
Defined.

(** C9. [millis_Init] does not enable interrupts globally. Every store it
    makes goes to one of [TCCR0A], [TCCR0B], [TIMSK0], [TIFR0], [OCR0A]; the
    status register with its global interrupt enable, the tick counter and
    every other register keep their content. *)
Theorem millis_Init_frame (h : aKaReZa_h) (s : mcu) :
  global_interrupts_enabled (exec millis_Init s) = global_interrupts_enabled s /\
  io (exec millis_Init s) SREG = io s SREG /\
  System_millis (exec millis_Init s) = System_millis s /\
  (forall r, is_config_reg r = true \/ io (exec millis_Init s) r = io s r) /\
  forallb config_store (trace millis_Init s) = true.
Proof.
  repeat split.
  intro r. rewrite millis_Init_io. destruct r; cbn; auto.
Qed.

(** C10. For every starting state, two calls of [millis_Init] in succession
    leave [TCCR0A], [TCCR0B], [TIMSK0], [TIFR0] and [OCR0A], and with them the
    whole machine, as one call does, provided that clearing a flag that was
    just cleared changes nothing. *)
Theorem millis_Init_idempotent (h : aKaReZa_h) (s : mcu) :
  clear_is_stable h ->
  (forall r, In r timer_config_regs ->
     io (exec (millis_Init ;; millis_Init) s) r = io (exec millis_Init s) r) /\
  (forall r, io (exec (millis_Init ;; millis_Init) s) r
             = io (exec millis_Init s) r) /\
  System_millis (exec (millis_Init ;; millis_Init) s)
  = System_millis (exec millis_Init s).
Proof.
  intro Hstable.
  assert (Hall : forall r, io (exec (millis_Init ;; millis_Init) s) r
                           = io (exec millis_Init s) r).
  { intro r. rewrite exec_bind.
    rewrite (millis_Init_io h (exec millis_Init s) r).
    destruct r; rewrite !millis_Init_io; try reflexivity.
    - bitwise.
    - bitwise.
    - bitwise.
    - apply Hstable. }
  split; [intros r _; apply Hall|].
  split; [exact Hall|].
  rewrite exec_bind. reflexivity.
Qed.

Lemma millis_Init_idempotent_witness :
  clear_is_stable atmega328p /\
  ((forall r, In r timer_config_regs ->
      io (exec (@millis_Init atmega328p ;; @millis_Init atmega328p) power_on) r
      = io (exec (@millis_Init atmega328p) power_on) r) /\
   (forall r,
      io (exec (@millis_Init atmega328p ;; @millis_Init atmega328p) power_on) r
      = io (exec (@millis_Init atmega328p) power_on) r) /\
   System_millis
     (exec (@millis_Init atmega328p ;; @millis_Init atmega328p) power_on)
   = System_millis (exec (@millis_Init atmega328p) power_on)).
Proof.
  split; [exact flag_write_one_stable|].
  apply (millis_Init_idempotent atmega328p power_on).
  exact flag_write_one_stable.
Defined.

(** ** The tick counter *)

Lemma ISR_exec (s : mcu) :
  exec ISR_TIMER0_COMPA_vect s = set_millis (add32 (System_millis s) 1) s.
Proof. reflexivity. Qed.

Lemma ticks_S (n : nat) (s : mcu) :
  ticks (S n) s = exec ISR_TIMER0_COMPA_vect (ticks n s).
Proof. reflexivity. Qed.

Lemma ticks_io (n : nat) (s : mcu) (r : sfr) : io (ticks n s) r = io s r.
Proof.
  induction n as [|n IH]; [reflexivity|].
  rewrite ticks_S, ISR_exec. exact IH.
Qed.

(** [n] interrupts advance the counter by [n], modulo its range. *)
Lemma ticks_System_millis (n : nat) (s : mcu) :
  uint32 (System_millis s) ->
  System_millis (ticks n s) = add32 (System_millis s) (Z.of_nat n).
Proof.
  intro Hc. induction n as [|n IH].
  - cbn. unfold add32. rewrite Z.add_0_r. symmetry. now apply wrap32_small.
  - rewrite ticks_S, ISR_exec. cbn [System_millis set_millis].
    rewrite IH. unfold add32, wrap32.
    rewrite Zplus_mod_idemp_l. f_equal. lia.
Qed.

Lemma sub32_add32 (a d : Z) : uint32 d -> sub32 (add32 a d) a = d.
Proof.
  intro Hd. unfold sub32, add32, wrap32.
  rewrite Zminus_mod_idemp_l. replace (a + d - a) with d by lia.
  now apply Z.mod_small.
Qed.

Lemma add32_sub32 (a b : Z) : uint32 b -> add32 a (sub32 b a) = b.
Proof.
  intro Hb. unfold sub32, add32, wrap32.
  rewrite Zplus_mod_idemp_r. replace (a + (b - a)) with b by lia.
  now apply Z.mod_small.
Qed.

(** C3. Each run of the compare-match handler increments [System_millis] by
    exactly one in 32-bit unsigned arithmetic: the new value is the old one
    plus one, except at the largest value, where it wraps to zero, and the
    wrapping difference between the two is one in every case. The handler
    makes a single store, to the counter, and touches no register.
    [millis_Init] and the polling of an interval timer never store to the
    counter and leave it as it is. *)
Theorem ISR_increments_by_one (s : mcu) :
  uint32 (System_millis s) ->
  System_millis (exec ISR_TIMER0_COMPA_vect s) = add32 (System_millis s) 1 /\
  sub32 (System_millis (exec ISR_TIMER0_COMPA_vect s)) (System_millis s) = 1 /\
  (System_millis (exec ISR_TIMER0_COMPA_vect s) = System_millis s + 1 \/
   System_millis s = 2 ^ 32 - 1 /\
   System_millis (exec ISR_TIMER0_COMPA_vect s) = 0) /\
  trace ISR_TIMER0_COMPA_vect s = [MillisStore (add32 (System_millis s) 1)] /\
  (forall r, io (exec ISR_TIMER0_COMPA_vect s) r = io s r) /\
  (forall h : aKaReZa_h,
     System_millis (exec millis_Init s) = System_millis s /\
     forallb config_store (trace millis_Init s) = true) /\
  (forall t, exec (poll_now t) s = s /\ trace (poll_now t) s = []).
Proof.
  intro Hc. rewrite ISR_exec. cbn [System_millis set_millis].
  split; [reflexivity|].
  split; [apply sub32_add32; unfold uint32, millis_bits; lia|].
  split.
  { unfold add32, wrap32, uint32, millis_bits in *.
    destruct (Z.eq_dec (System_millis s) (2 ^ 32 - 1)) as [E|E].
    - right. split; [exact E|]. rewrite E. reflexivity.
    - left. apply Z.mod_small. lia. }
  split; [reflexivity|].
  split; [reflexivity|].
  split.
  - intro h. split; reflexivity.
  - intro t. destruct s. split; reflexivity.
Qed.

Lemma ISR_increments_by_one_witness :
  uint32 (System_millis power_on) /\
  (System_millis (exec ISR_TIMER0_COMPA_vect power_on)
   = add32 (System_millis power_on) 1 /\
   sub32 (System_millis (exec ISR_TIMER0_COMPA_vect power_on))
     (System_millis power_on) = 1 /\
   (System_millis (exec ISR_TIMER0_COMPA_vect power_on)
    = System_millis power_on + 1 \/
    System_millis power_on = 2 ^ 32 - 1 /\
    System_millis (exec ISR_TIMER0_COMPA_vect power_on) = 0) /\
   trace ISR_TIMER0_COMPA_vect power_on
   = [MillisStore (add32 (System_millis power_on) 1)] /\
   (forall r, io (exec ISR_TIMER0_COMPA_vect power_on) r = io power_on r) /\
   (forall h : aKaReZa_h,
      System_millis (exec millis_Init power_on) = System_millis power_on /\
      forallb config_store (trace millis_Init power_on) = true) /\
   (forall t, exec (poll_now t) power_on = power_on /\
              trace (poll_now t) power_on = [])).
Proof.
  split.
  - unfold uint32, millis_bits. cbn. lia.
  - apply (ISR_increments_by_one power_on).
    unfold uint32, millis_bits. cbn. lia.
Defined.

(** C8. [System_millis] is an unsigned integer of 32 bits and holds zero when
    the program starts, before any interrupt has fired; from there [n]
    interrupts bring it to [n] modulo [2 ^ 32], always within the range of
    its type. *)
Theorem System_millis_starts_at_zero (regs : sfr -> Z) (n : nat) :
  System_millis (startup regs) = 0 /\
  System_millis (ticks 0 (startup regs)) = 0 /\
  32 <= millis_bits /\
  uint32 (System_millis (ticks n (startup regs))) /\
  System_millis (ticks n (startup regs)) = Z.of_nat n mod 2 ^ millis_bits.
Proof.
  assert (H0 : uint32 (System_millis (startup regs)))
    by (unfold uint32, millis_bits; cbn; lia).
  split; [reflexivity|]. split; [reflexivity|].
  split; [unfold millis_bits; lia|].
  rewrite (ticks_System_millis n _ H0).
  split; [apply wrap32_range|reflexivity].
Qed.

(** ** The interval timer *)

Lemma elapsed_eq (t : millis_T) (now : Z) :
  elapsed t now = sub32 now (Previous t).
Proof. reflexivity. Qed.

Lemma expired_eq (t : millis_T) (now : Z) :
  expired t now = (elapsed t now >=? Interval t).
Proof. reflexivity. Qed.

Lemma check_timer (t : millis_T) (now : Z) :
  snd (check now t) = update_Delta now t.
Proof. reflexivity. Qed.

(** Computing the elapsed time keeps the reference point and the interval, so
    it can be repeated at will. *)
Lemma update_Delta_twice (t : millis_T) (now : Z) :
  update_Delta now (update_Delta now t) = update_Delta now t.
Proof. reflexivity. Qed.

Lemma checks_keep_Previous (n : nat) (t : millis_T) (now : Z) :
  Previous (Nat.iter n (fun t' => snd (check now t')) t) = Previous t /\
  Interval (Nat.iter n (fun t' => snd (check now t')) t) = Interval t.
Proof.
  induction n as [|n [IHp IHi]]; [split; reflexivity|].
  cbn. split; assumption.
Qed.

(** X5. A timer started at the current tick measures the interrupts that
    fire afterwards, across the wrap of the counter as well: after [n]
    interrupts, fewer than [2 ^ 32], the elapsed time is [n]. *)
Lemma elapsed_after_ticks (t : millis_T) (s : mcu) (n : nat) :
  uint32 (System_millis s) ->
  uint32 (Z.of_nat n) ->
  elapsed (advance t (System_millis s)) (System_millis (ticks n s)) = Z.of_nat n.
Proof.
  intros Hc Hn. rewrite elapsed_eq. cbn [Previous advance].
  rewrite (wrap32_small _ Hc), (ticks_System_millis n s Hc).
  now apply sub32_add32.
Qed.

Lemma zero_interval_expired (t : millis_T) (now : Z) :
  Interval t = 0 -> expired t now = true.
Proof.
  intro Hi. rewrite expired_eq, Hi, elapsed_eq.
  apply Z.geb_le. apply (wrap32_range (now - Previous t)).
Qed.

(** C4. For 32-bit values [previous] and [now] the elapsed time
    [now - previous], computed in 32-bit unsigned arithmetic, is
    [(now - previous) mod 2 ^ 32]: a 32-bit value that, added to [previous],
    gives [now] again. With [previous] at [2 ^ 32 - 1] and [now] at 0 it
    is 1; with [previous] at 4294967294 and [now] at 1 it is 3. *)
Theorem elapsed_is_wrapping_difference (t : millis_T) (now : Z) :
  uint32 (Previous t) ->
  uint32 now ->
  elapsed t now = (now - Previous t) mod 2 ^ 32 /\
  uint32 (elapsed t now) /\
  add32 (Previous t) (elapsed t now) = now /\
  elapsed (advance t (2 ^ 32 - 1)) 0 = 1 /\
  elapsed (advance t 4294967294) 1 = 3.
Proof.
  intros Hp Hn. rewrite elapsed_eq.
  split; [reflexivity|].
  split; [apply wrap32_range|].
  split; [now apply add32_sub32|].
  split; reflexivity.
Qed.

Lemma elapsed_is_wrapping_difference_witness :
  uint32 (Previous (Build_millis_T 4294967294 0 1000)) /\
  uint32 1 /\
  (elapsed (Build_millis_T 4294967294 0 1000) 1
   = (1 - Previous (Build_millis_T 4294967294 0 1000)) mod 2 ^ 32 /\
   uint32 (elapsed (Build_millis_T 4294967294 0 1000) 1) /\
   add32 (Previous (Build_millis_T 4294967294 0 1000))
     (elapsed (Build_millis_T 4294967294 0 1000) 1) = 1 /\
   elapsed (advance (Build_millis_T 4294967294 0 1000) (2 ^ 32 - 1)) 0 = 1 /\
   elapsed (advance (Build_millis_T 4294967294 0 1000) 4294967294) 1 = 3).
Proof.
  split; [unfold uint32, millis_bits; cbn; lia|].
  split; [unfold uint32, millis_bits; lia|].
  apply (elapsed_is_wrapping_difference (Build_millis_T 4294967294 0 1000) 1).
  - unfold uint32, millis_bits. cbn. lia.
  - unfold uint32, millis_bits. lia.
Defined.

(** C5. [expired] is true exactly when the elapsed time has reached the
    interval. Checking again with the same tick value, any number of times,
    gives the same answer and leaves [Previous] (and [Interval]) as they
    were; only [advance] moves [Previous]. *)
Theorem expired_iff_elapsed_reaches_interval (t : millis_T) (now : Z) :
  (expired t now = true <-> elapsed t now >= Interval t) /\
  Previous (snd (check now t)) = Previous t /\
  expired (snd (check now t)) now = expired t now /\
  (forall n : nat,
     expired (Nat.iter n (fun t' => snd (check now t')) t) now = expired t now /\
     Previous (Nat.iter n (fun t' => snd (check now t')) t) = Previous t).
Proof.
  split.
  { rewrite expired_eq, Z.geb_le. lia. }
  split; [reflexivity|].
  split; [reflexivity|].
  intro n. destruct (checks_keep_Previous n t now) as [Hp Hi].
  split; [|exact Hp].
  rewrite !expired_eq, !elapsed_eq, Hp, Hi. reflexivity.
Qed.

(** C6. With an interval of 1000 and [Previous] at 0 the timer has not
    expired at tick 999 and has expired at tick 1000; after [advance] to
    1000, [Previous] is 1000 and the timer has not expired at tick 1000. *)
Theorem interval_1000_scenario (d : Z) :
  expired (Build_millis_T 0 d 1000) 999 = false /\
  expired (Build_millis_T 0 d 1000) 1000 = true /\
  Previous (advance (Build_millis_T 0 d 1000) 1000) = 1000 /\
  expired (advance (Build_millis_T 0 d 1000) 1000) 1000 = false /\
  poll 1000 (Build_millis_T 0 d 1000) = (true, Build_millis_T 1000 1000 1000).
Proof. repeat split. Qed.

(** C7. With an interval of 0, [expired] is true at every tick value [now]
    from [Previous] on. The check reports nothing else: it returns the
    answer and the timer with its elapsed time brought up to date. *)
Theorem zero_interval_always_expired (t : millis_T) (now : Z) :
  Interval t = 0 ->
  now >= Previous t ->
  expired t now = true /\
  check now t = (true, update_Delta now t).
Proof.
  intros Hi _.
  pose proof (zero_interval_expired t now Hi) as He.
  split; [exact He|].
  unfold expired in He. destruct (check now t) as [b t'] eqn:E.
  cbn in He. subst b. f_equal.
  change t' with (snd (true, t')). rewrite <- E. apply check_timer.
Qed.

Lemma zero_interval_always_expired_witness :
  Interval (Build_millis_T 7 0 0) = 0 /\
  12 >= Previous (Build_millis_T 7 0 0) /\
  (expired (Build_millis_T 7 0 0) 12 = true /\
   check 12 (Build_millis_T 7 0 0)
   = (true, update_Delta 12 (Build_millis_T 7 0 0))).
Proof.
  split; [reflexivity|].
  split; [cbn; lia|].
  apply (zero_interval_always_expired (Build_millis_T 7 0 0) 12).
  - reflexivity.
  - cbn. lia.
Defined.

(** * Further properties of the driver and its client code *)

(** ** [millis_Init] bit by bit *)

(** X1. [millis_Init] changes only the bits it names: every other bit of
    [TCCR0A], [TCCR0B] and [TIMSK0] reads after the call what it read
    before. *)
Theorem millis_Init_keeps_other_bits (h : aKaReZa_h) (s : mcu) (n : Z) :
  layout_ok h = true ->
  0 <= n < 8 ->
  (n <> WGM00 -> n <> WGM01 ->
   Z.testbit (io (exec millis_Init s) TCCR0A) n = Z.testbit (io s TCCR0A) n) /\
  (n <> WGM02 -> n <> CS00 -> n <> CS01 -> n <> CS02 ->
   Z.testbit (io (exec millis_Init s) TCCR0B) n = Z.testbit (io s TCCR0B) n) /\
  (n <> OCIE0A ->
   Z.testbit (io (exec millis_Init s) TIMSK0) n = Z.testbit (io s TIMSK0) n).
Proof.
  intros Hok Hn.
  destruct (layout_ok_bits h Hok) as (HW & HC & HO & Hw & Hwc & Hc).
  repeat split; intros; bit_of_reg.
Qed.

Lemma millis_Init_keeps_other_bits_witness :
  layout_ok atmega328p = true /\
  0 <= 6 < 8 /\
  ((6 <> @WGM00 atmega328p -> 6 <> @WGM01 atmega328p ->
    Z.testbit (io (exec (@millis_Init atmega328p) power_on) TCCR0A) 6
    = Z.testbit (io power_on TCCR0A) 6) /\
   (6 <> @WGM02 atmega328p -> 6 <> @CS00 atmega328p ->
    6 <> @CS01 atmega328p -> 6 <> @CS02 atmega328p ->
    Z.testbit (io (exec (@millis_Init atmega328p) power_on) TCCR0B) 6
    = Z.testbit (io power_on TCCR0B) 6) /\
   (6 <> @OCIE0A atmega328p ->
    Z.testbit (io (exec (@millis_Init atmega328p) power_on) TIMSK0) 6
    = Z.testbit (io power_on TIMSK0) 6)).
Proof.
  split; [reflexivity|].
  split; [lia|].
  apply (millis_Init_keeps_other_bits atmega328p power_on 6).
  - reflexivity.
  - lia.
Defined.

(** X2. Counting and configuring do not interfere: [n] interrupts followed by
    [millis_Init] leave the machine as [millis_Init] followed by [n]
    interrupts does. *)
Theorem millis_Init_commutes_with_ticks (h : aKaReZa_h) (s : mcu) (n : nat) :
  (forall r, io (exec millis_Init (ticks n s)) r
             = io (ticks n (exec millis_Init s)) r) /\
  System_millis (exec millis_Init (ticks n s))
  = System_millis (ticks n (exec millis_Init s)).
Proof.
  split.
  - intro r. rewrite ticks_io, !millis_Init_io.
    destruct r; rewrite ?ticks_io; reflexivity.
  - rewrite millis_Init_System_millis.
    induction n as [|n IH]; [reflexivity|].
    rewrite !ticks_S, !ISR_exec. cbn [System_millis set_millis].
    now rewrite IH.
Qed.


(** ** The counter over many interrupts *)

Lemma sub32_add32_wrap (a d : Z) : sub32 (add32 a d) a = wrap32 d.
Proof.
  unfold sub32, add32, wrap32.
  rewrite Zminus_mod_idemp_l. f_equal. lia.
Qed.

Lemma sub32_same_base (x a b : Z) :
  sub32 (add32 x a) (add32 x b) = wrap32 (a - b).
Proof.
  unfold sub32, add32, wrap32.
  rewrite <- Zminus_mod. f_equal. lia.
Qed.

Lemma ticks_uint32 (n : nat) (s : mcu) :
  uint32 (System_millis s) -> uint32 (System_millis (ticks n s)).
Proof. intro Hc. rewrite (ticks_System_millis n s Hc). apply wrap32_range. Qed.

(** The wrapping difference between the counter after [n] interrupts and the
    counter before them. *)
Lemma ticks_difference (n : nat) (s : mcu) :
  uint32 (System_millis s) ->
  sub32 (System_millis (ticks n s)) (System_millis s) = wrap32 (Z.of_nat n).
Proof.
  intro Hc. rewrite (ticks_System_millis n s Hc). apply sub32_add32_wrap.
Qed.

(** X4. From any counter value, [n] interrupts bring the counter to that
    value plus [n] modulo [2 ^ 32] and touch no register. The counter shows
    the same value again after exactly [2 ^ 32] further interrupts, and not
    earlier. *)
Theorem ticks_wrap_period (s : mcu) (n : nat) :
  uint32 (System_millis s) ->
  System_millis (ticks n s) = (System_millis s + Z.of_nat n) mod 2 ^ 32 /\
  (forall r, io (ticks n s) r = io s r) /\
  (forall m : nat, Z.of_nat m = Z.of_nat n + 2 ^ 32 ->
     System_millis (ticks m s) = System_millis (ticks n s)) /\
  (forall m : nat, Z.of_nat n < Z.of_nat m < Z.of_nat n + 2 ^ 32 ->
     System_millis (ticks m s) <> System_millis (ticks n s)).
Proof.
  intro Hc.
  split; [apply (ticks_System_millis n s Hc)|].
  split; [intro r; apply ticks_io|].
  split.
  - intros m Hm. rewrite !(ticks_System_millis _ s Hc), Hm.
    unfold add32, wrap32, millis_bits.
    replace (System_millis s + (Z.of_nat n + 2 ^ 32))
      with (System_millis s + Z.of_nat n + 1 * 2 ^ 32) by lia.
    apply Z_mod_plus_full.
  - intros m Hm. rewrite !(ticks_System_millis _ s Hc).
    unfold add32, wrap32, millis_bits. intro Heq.
    assert (Hz : (Z.of_nat m - Z.of_nat n) mod 2 ^ 32 = 0).
    { replace (Z.of_nat m - Z.of_nat n)
        with ((System_millis s + Z.of_nat m) - (System_millis s + Z.of_nat n))
        by lia.
      rewrite Zminus_mod, Heq, Z.sub_diag. reflexivity. }
    rewrite Z.mod_small in Hz by lia. lia.
Qed.

Lemma ticks_wrap_period_witness :
  uint32 (System_millis power_on) /\
  (System_millis (ticks 3 power_on)
   = (System_millis power_on + Z.of_nat 3) mod 2 ^ 32 /\
   (forall r, io (ticks 3 power_on) r = io power_on r) /\
   (forall m : nat, Z.of_nat m = Z.of_nat 3 + 2 ^ 32 ->
      System_millis (ticks m power_on) = System_millis (ticks 3 power_on)) /\
   (forall m : nat, Z.of_nat 3 < Z.of_nat m < Z.of_nat 3 + 2 ^ 32 ->
      System_millis (ticks m power_on) <> System_millis (ticks 3 power_on))).
Proof.
  split.
  - unfold uint32, millis_bits. cbn. lia.
  - apply (ticks_wrap_period power_on 3).
    unfold uint32, millis_bits. cbn. lia.
Defined.

(** ** Timers against the running counter *)

Lemma elapsed_after_ticks_witness :
  uint32 (System_millis (set_millis 4294967294 power_on)) /\
  uint32 (Z.of_nat 3) /\
  elapsed
    (advance (Build_millis_T 0 0 1000)
       (System_millis (set_millis 4294967294 power_on)))
    (System_millis (ticks 3 (set_millis 4294967294 power_on)))
  = Z.of_nat 3.
Proof.
  split; [unfold uint32, millis_bits; cbn; lia|].
  split; [unfold uint32, millis_bits; cbn; lia|].
  apply (elapsed_after_ticks (Build_millis_T 0 0 1000)
           (set_millis 4294967294 power_on) 3).
  - unfold uint32, millis_bits. cbn. lia.
  - unfold uint32, millis_bits. cbn. lia.
Defined.

Lemma advance_at_counter (t : millis_T) (c : Z) :
  uint32 c ->
  Previous (advance t c) = c /\ Interval (advance t c) = Interval t.
Proof. intro Hc. cbn. now rewrite (wrap32_small c Hc). Qed.

(** X6. A timer advanced at the current tick is expired exactly from the
    [Interval]-th interrupt on, for as long as fewer than [2 ^ 32] interrupts
    have fired. Left alone for a full period of the counter it reads no
    elapsed time again, so with a positive interval it is not expired. *)
Theorem expired_after_ticks (t : millis_T) (s : mcu) (n : nat) :
  uint32 (System_millis s) ->
  (Z.of_nat n < 2 ^ 32 ->
   expired (advance t (System_millis s)) (System_millis (ticks n s))
   = (Z.of_nat n >=? Interval t)) /\
  (Z.of_nat n = 2 ^ 32 ->
   elapsed (advance t (System_millis s)) (System_millis (ticks n s)) = 0 /\
   (0 < Interval t ->
    expired (advance t (System_millis s)) (System_millis (ticks n s)) = false)).
Proof.
  intro Hc.
  destruct (advance_at_counter t _ Hc) as [Hp Hi].
  assert (He : elapsed (advance t (System_millis s)) (System_millis (ticks n s))
               = wrap32 (Z.of_nat n)).
  { rewrite elapsed_eq, Hp. now apply ticks_difference. }
  split.
  - intro Hn. rewrite expired_eq, He, Hi.
    rewrite wrap32_small by (unfold uint32, millis_bits; lia). reflexivity.
  - intro Hn. rewrite expired_eq, He, Hi, Hn.
    split; [reflexivity|].
    intro HI. change (wrap32 (2 ^ 32)) with 0.
    rewrite Z.geb_leb. apply Z.leb_gt. exact HI.
Qed.

Lemma expired_after_ticks_witness :
  uint32 (System_millis power_on) /\
  ((Z.of_nat 5 < 2 ^ 32 ->
    expired (advance (Build_millis_T 0 0 4) (System_millis power_on))
      (System_millis (ticks 5 power_on))
    = (Z.of_nat 5 >=? Interval (Build_millis_T 0 0 4))) /\
   (Z.of_nat 5 = 2 ^ 32 ->
    elapsed (advance (Build_millis_T 0 0 4) (System_millis power_on))
      (System_millis (ticks 5 power_on)) = 0 /\
    (0 < Interval (Build_millis_T 0 0 4) ->
     expired (advance (Build_millis_T 0 0 4) (System_millis power_on))
       (System_millis (ticks 5 power_on)) = false))).
Proof.
  split.
  - unfold uint32, millis_bits. cbn. lia.
  - apply (expired_after_ticks (Build_millis_T 0 0 4) power_on 5).
    unfold uint32, millis_bits. cbn. lia.
Defined.



(** ** The polling example of [millis.h] *)

(** What one run of the example leaves behind, by the outcome of its test. *)
Lemma poll_cases (t : millis_T) (now : Z) :
  (expired t now = true /\
   poll now t = (true, advance (update_Delta now t) now)) \/
  (expired t now = false /\
   poll now t = (false, update_Delta now t)).
Proof.
  unfold poll, expired, check. cbn [fst].
  destruct (interval_reached (update_Delta now t)); [left | right];
    split; reflexivity.
Qed.



(** X9. With a positive interval the task runs at most once per tick value:
    when a run of the example has run the task, running the example again
    at the same tick value does not. *)
Theorem poll_not_twice_at_one_tick (t : millis_T) (now : Z) :
  0 < Interval t ->
  fst (poll now t) = true ->
  fst (poll now (snd (poll now t))) = false.
Proof.
  intros HI Hfired.
  destruct (poll_cases t now) as [[He Hp] | [He Hp]];
    rewrite Hp in *; cbn [fst snd] in *; [|discriminate].
  destruct (poll_cases (advance (update_Delta now t) now) now)
    as [[He' Hp'] | [He' Hp']]; rewrite Hp'; cbn [fst]; [|reflexivity].
  exfalso. rewrite expired_eq, elapsed_eq in He'. cbn in He'.
  unfold sub32, wrap32 in He'.
  rewrite Zminus_mod_idemp_r, Z.sub_diag in He'.
  change (0 mod 2 ^ millis_bits) with 0 in He'.
  apply Z.geb_le in He'. lia.
Qed.

Lemma poll_not_twice_at_one_tick_witness :
  0 < Interval (Build_millis_T 0 0 1000) /\
  fst (poll 1500 (Build_millis_T 0 0 1000)) = true /\
  fst (poll 1500 (snd (poll 1500 (Build_millis_T 0 0 1000)))) = false.
Proof.
  split; [cbn; lia|].
  split; [reflexivity|].
  apply (poll_not_twice_at_one_tick (Build_millis_T 0 0 1000) 1500).
  - cbn. lia.
  - reflexivity.
Defined.

(** X10. A late poll is not made up for. When the example first runs [n]
    interrupts after the timer was advanced, with [n] at or beyond the
    interval, the task runs, and the timer is expired again exactly from the
    [Interval]-th interrupt after that run: the next period counts from the
    tick at which expiry was detected, not from the tick at which it was
    due. *)
Theorem late_poll_restarts_period (t : millis_T) (s : mcu) (n m : nat) :
  uint32 (System_millis s) ->
  Interval t <= Z.of_nat n < 2 ^ 32 ->
  Z.of_nat m < 2 ^ 32 ->
  fst (poll (System_millis (ticks n s)) (advance t (System_millis s))) = true /\
  expired
    (snd (poll (System_millis (ticks n s)) (advance t (System_millis s))))
    (System_millis (ticks m (ticks n s)))
  = (Z.of_nat m >=? Interval t).
Proof.
  intros Hc Hn Hm.
  pose proof (ticks_uint32 n s Hc) as Hc1.
  destruct (advance_at_counter t _ Hc) as [Hp Hi].
  assert (He : expired (advance t (System_millis s)) (System_millis (ticks n s))
               = true).
  { rewrite expired_eq, elapsed_eq, Hp, Hi, (ticks_difference n s Hc).
    rewrite wrap32_small by (unfold uint32, millis_bits; lia).
    apply Z.geb_le. lia. }
  destruct (poll_cases (advance t (System_millis s)) (System_millis (ticks n s)))
    as [[_ Hpoll] | [He' _]]; [|congruence].
  rewrite Hpoll. cbn [fst snd]. split; [reflexivity|].
  rewrite expired_eq, elapsed_eq. cbn [Previous Interval advance update_Delta].
  rewrite (wrap32_small _ Hc1), (ticks_difference m _ Hc1).
  rewrite wrap32_small by (unfold uint32, millis_bits; lia). reflexivity.
Qed.

Lemma late_poll_restarts_period_witness :
  uint32 (System_millis power_on) /\
  Interval (Build_millis_T 0 0 4) <= Z.of_nat 7 < 2 ^ 32 /\
  Z.of_nat 4 < 2 ^ 32 /\
  (fst (poll (System_millis (ticks 7 power_on))
          (advance (Build_millis_T 0 0 4) (System_millis power_on))) = true /\
   expired
     (snd (poll (System_millis (ticks 7 power_on))
             (advance (Build_millis_T 0 0 4) (System_millis power_on))))
     (System_millis (ticks 4 (ticks 7 power_on)))
   = (Z.of_nat 4 >=? Interval (Build_millis_T 0 0 4))).
Proof.
  split; [unfold uint32, millis_bits; cbn; lia|].
  split; [cbn; lia|].
  split; [cbn; lia|].
  apply (late_poll_restarts_period (Build_millis_T 0 0 4) power_on 7 4).
  - unfold uint32, millis_bits. cbn. lia.
  - cbn. lia.
  - cbn. lia.
Defined.

(** ** Polling after every interrupt *)

Lemma div_mod_next (j i : Z) :
  0 <= j -> 0 < i ->
  (j mod i + 1 < i /\ (j + 1) / i = j / i /\ (j + 1) mod i = j mod i + 1) \/
  (j mod i + 1 = i /\ (j + 1) / i = j / i + 1 /\ (j + 1) mod i = 0).
Proof.
  intros Hj Hi.
  pose proof (Z.div_mod j i ltac:(lia)) as Hdm.
  pose proof (Z.mod_pos_bound j i Hi) as Hr.
  destruct (Z_lt_ge_dec (j mod i + 1) i) as [Hlt | Hge].
  - left. split; [exact Hlt|]. split.
    + symmetry. apply (Z.div_unique (j + 1) i (j / i) (j mod i + 1)); lia.
    + symmetry. apply (Z.mod_unique (j + 1) i (j / i) (j mod i + 1)); lia.
  - right. split; [lia|]. split.
    + symmetry. apply (Z.div_unique (j + 1) i (j / i + 1) 0); lia.
    + symmetry. apply (Z.mod_unique (j + 1) i (j / i + 1) 0); lia.
Qed.

Lemma poll_every_tick_S (n : nat) (t : millis_T) (s : mcu) :
  poll_every_tick (S n) t s =
  let '(k, t1, s1) := poll_every_tick n t s in
  let now := add32 (System_millis s1) 1 in
  ((if fst (poll now t1) then S k else k),
   snd (poll now t1),
   exec ISR_TIMER0_COMPA_vect s1).
Proof.
  cbn [poll_every_tick].
  destruct (poll_every_tick n t s) as [[k t1] s1].
  unfold tick_then_poll, poll_now, ISR_TIMER0_COMPA_vect, exec, add32.
  unfold bind, ret, load_millis, store_millis.
  cbn [fst snd System_millis set_millis].
  destruct (poll (wrap32 (System_millis s1 + 1)) t1) as [due t2].
  reflexivity.
Qed.

(** After [n] rounds: the task ran [n / Interval] times, the counter stands
    [n] interrupts on, and [Previous] stands at the last multiple of the
    interval. *)
Lemma poll_every_tick_state (t : millis_T) (s : mcu) (n : nat) :
  uint32 (System_millis s) ->
  Previous t = System_millis s ->
  0 < Interval t < 2 ^ 32 ->
  Z.of_nat (fst (fst (poll_every_tick n t s))) = Z.of_nat n / Interval t /\
  Interval (snd (fst (poll_every_tick n t s))) = Interval t /\
  Previous (snd (fst (poll_every_tick n t s)))
  = add32 (System_millis s) (Z.of_nat n - Z.of_nat n mod Interval t) /\
  System_millis (snd (poll_every_tick n t s))
  = add32 (System_millis s) (Z.of_nat n).
Proof.
  intros Hc Hp HI. induction n as [|n IH].
  - cbn [poll_every_tick fst snd]. rewrite Hp. unfold add32.
    change (Z.of_nat 0) with 0. rewrite Z.div_0_l, Zmod_0_l by lia.
    rewrite Z.sub_0_r, Z.add_0_r, (wrap32_small _ Hc). repeat split.
  - rewrite poll_every_tick_S.
    destruct (poll_every_tick n t s) as [[k t1] s1].
    cbn [fst snd] in IH. destruct IH as (Hk & Hi1 & Hp1 & Hc1).
    cbn zeta. cbn [fst snd]. rewrite ISR_exec. cbn [System_millis set_millis].
    set (now := add32 (System_millis s1) 1).
    assert (Hnow : now = add32 (System_millis s) (Z.of_nat (S n))).
    { unfold now. rewrite Hc1. unfold add32, wrap32.
      rewrite Zplus_mod_idemp_l. f_equal. lia. }
    assert (Hel : elapsed t1 now = Z.of_nat n mod Interval t + 1).
    { rewrite elapsed_eq, Hp1, Hnow, sub32_same_base.
      pose proof (Z.mod_pos_bound (Z.of_nat n) (Interval t) ltac:(lia)) as Hr.
      replace (Z.of_nat (S n) - (Z.of_nat n - Z.of_nat n mod Interval t))
        with (Z.of_nat n mod Interval t + 1) by lia.
      apply wrap32_small. unfold uint32, millis_bits. lia. }
    replace (Z.of_nat (S n)) with (Z.of_nat n + 1) in * by lia.
    destruct (div_mod_next (Z.of_nat n) (Interval t) ltac:(lia) ltac:(lia))
      as [(Hr & Hq & Hm) | (Hr & Hq & Hm)];
      destruct (poll_cases t1 now) as [[He Hpoll] | [He Hpoll]];
      rewrite expired_eq, Hel, Hi1 in He;
      try (apply Z.geb_le in He; lia);
      try (rewrite Z.geb_leb in He; apply Z.leb_gt in He; lia);
      rewrite Hpoll; cbn [fst snd Previous Interval advance update_Delta];
      rewrite Hq, Hm.
    + repeat split; try assumption. rewrite Hp1. f_equal. lia.
    + repeat split; try assumption; try lia.
      rewrite Hnow. unfold add32 at 1. unfold wrap32 at 1.
      rewrite Z.sub_0_r. apply wrap32_small. apply wrap32_range.
Qed.

(** X11. A main loop that runs the example of [millis.h] once after every
    interrupt, with a timer started at the current tick and an interval
    between 1 and [2 ^ 32 - 1], has run the periodic task [n / Interval]
    times after [n] interrupts: once every [Interval] milliseconds, for any
    number of interrupts and so across every wrap of the counter. *)
Theorem poll_every_tick_period (t : millis_T) (s : mcu) (n : nat) :
  uint32 (System_millis s) ->
  0 < Interval t < 2 ^ 32 ->
  Z.of_nat (fst (fst (poll_every_tick n (advance t (System_millis s)) s)))
  = Z.of_nat n / Interval t.
Proof.
  intros Hc HI.
  destruct (advance_at_counter t _ Hc) as [Hp Hi].
  rewrite <- Hi.
  apply (poll_every_tick_state (advance t (System_millis s)) s n Hc Hp).
  now rewrite Hi.
Qed.

Lemma poll_every_tick_period_witness :
  uint32 (System_millis (set_millis 4294967290 power_on)) /\
  0 < Interval (Build_millis_T 0 0 4) < 2 ^ 32 /\
  Z.of_nat
    (fst (fst (poll_every_tick 10
                 (advance (Build_millis_T 0 0 4)
                    (System_millis (set_millis 4294967290 power_on)))
                 (set_millis 4294967290 power_on))))
  = Z.of_nat 10 / Interval (Build_millis_T 0 0 4).
Proof.
  split; [unfold uint32, millis_bits; cbn; lia|].
  split; [cbn; lia|].
  apply (poll_every_tick_period (Build_millis_T 0 0 4)
           (set_millis 4294967290 power_on) 10).
  - unfold uint32, millis_bits. cbn. lia.
  - cbn. lia.
Defined.

Example poll_every_tick_across_wrap :
  fst (fst (poll_every_tick 10 (Build_millis_T 4294967290 0 4)
              (set_millis 4294967290 power_on))) = 2%nat.
Proof. vm_compute. reflexivity. Qed.
